(** * Movie catalog service: registration, bearer tokens and owner-checked CRUD

    A shallow embedding of [maincapstoneproject.py].  The handlers are
    functions over an explicit database session.  What the program is
    written against is made explicit: the names bound in the module, the
    [relationship()] declarations of the mapped classes, and what the
    libraries compute (the MAC of a token, the hash of a password, the key
    and the scan order the storage engine picks).  The handlers are stated
    over any such surroundings; [module_names_of_source] and
    [relationships_of_source] are the ones of the file as it is written.

    Time is the POSIX time in whole seconds, the unit of the [exp] claim of
    a token. *)

From Stdlib Require Import Ascii.
From stdpp Require Import base numbers strings pretty list sorting gmap.

Local Open Scope Z_scope.

(** ** Exceptions and results *)

(** [HTTPException(status_code, detail, headers)]. *)
Record HTTPException := {
  status_code : Z;
  detail : string;
  headers : list (string * string)
}.

(** What can be raised: an [HTTPException], which the framework turns into
    the response it describes, or an exception of Python or of a library,
    which no handler catches and the server answers with status 500.
    [SQLAlchemyError] stands for the classes of [sqlalchemy.exc]: when the
    mappers cannot be configured, [ArgumentError] at their first use in the
    process and [InvalidRequestError] at every later one. *)
Inductive exception :=
| HTTP (e : HTTPException)
| NameError (name : string)
| SQLAlchemyError (message : string)
| OverflowError (message : string)
| ValueError (message : string).

Coercion HTTP : HTTPException >-> exception.

(** What a handler gives back: the value it returns or the exception it
    raises. *)
Inductive outcome (A : Type) : Type :=
| Return (a : A)
| Raise (e : exception).
Arguments Return {A} a.
Arguments Raise {A} e.

Definition HTTP_401_UNAUTHORIZED : Z := 401.

(** The status of the response the client gets. *)
Definition status_of {A} (r : outcome A) : Z :=
  match r with
  | Return _ => 200
  | Raise (HTTP e) => status_code e
  | Raise _ => 500
  end.

(** ** The module and its mapped classes *)

(** The names the module binds, by its imports and its definitions, in the
    order of the file. *)
Definition module_names_of_source : list string :=
  ["FastAPI"; "Depends"; "HTTPException"; "status";
   "OAuth2PasswordBearer"; "OAuth2"; "JSONResponse"; "Request"; "BaseModel";
   "create_engine"; "Column"; "Integer"; "String"; "Float"; "ForeignKey";
   "declarative_base"; "sessionmaker"; "Session"; "relationship";
   "JWTError"; "jwt"; "CryptContext"; "datetime"; "timedelta"; "os"; "logging";
   "logger"; "SQLALCHEMY_DATABASE_URL"; "engine"; "SessionLocal"; "Base";
   "SECRET_KEY"; "ALGORITHM"; "ACCESS_TOKEN_EXPIRE_MINUTES";
   "pwd_context"; "oauth2_scheme"; "User"; "Movie"; "Rating"; "Comment"; "app";
   "db_session_middleware"; "get_db"; "verify_password"; "get_password_hash";
   "create_access_token"; "get_current_user"; "register_user";
   "login_for_access_token"; "get_movies"; "create_movie"; "get_movie";
   "update_movie"; "delete_movie"].

(** [attribute = relationship(argument, backref=..., remote_side=...)] in
    the body of a mapped class. *)
Record Relationship := {
  rel_class : string;
  rel_attribute : string;
  rel_argument : string;
  rel_backref : option string;
  rel_remote_side : option string
}.

Definition relationships_of_source : list Relationship :=
  [ {| rel_class := "Movie"; rel_attribute := "user"; rel_argument := "User";
       rel_backref := Some "movies"; rel_remote_side := None |};
    {| rel_class := "Rating"; rel_attribute := "movie"; rel_argument := "Movie";
       rel_backref := Some "ratings"; rel_remote_side := None |};
    {| rel_class := "Comment"; rel_attribute := "movie"; rel_argument := "Movie";
       rel_backref := Some "comments"; rel_remote_side := None |};
    {| rel_class := "Comment"; rel_attribute := "user"; rel_argument := "User";
       rel_backref := Some "comments"; rel_remote_side := None |};
    {| rel_class := "Comment"; rel_attribute := "parent"; rel_argument := "Comment";
       rel_backref := Some "replies"; rel_remote_side := None |} ].

(** A relationship of a class to itself that has a backref and no
    [remote_side] is one-to-many on both sides, which the configuration of
    the mappers refuses. *)
Definition same_direction (r : Relationship) : bool :=
  bool_decide (rel_argument r = rel_class r)
  && bool_decide (is_Some (rel_backref r))
  && bool_decide (rel_remote_side r = None).

(** The message of the error the configuration of the mappers raises, if it
    raises one. *)
Definition mapper_failure (relationships : list Relationship) : option string :=
  (λ r, rel_class r +:+ "." +:+ rel_attribute r +:+ " and back-reference "
        +:+ rel_argument r +:+ "." +:+ default "" (rel_backref r)
        +:+ " are both of the same direction")
  <$> find same_direction relationships.

(** What the configuration of the mappers raises for the classes of the
    file. *)
Definition mapper_error_of_source : exception :=
  SQLAlchemyError
    "Comment.parent and back-reference Comment.replies are both of the same direction".

(** ** Tables *)

Module User.
Record t := mk { id : Z; username : string; password : string }.
End User.

Module Movie.
Record t := mk { id : Z; title : string; description : string; user_id : Z }.
End Movie.

(** The rows of the two tables the handlers reach, in the order they were
    inserted. *)
Record DB := { users : list User.t; movies : list Movie.t }.

(** A session is a unit of work: [add], attribute writes and [delete] act
    on the session's working copy, and [commit] is what makes the stored
    tables equal to it.  Closing the session drops the working copy. *)
Record Session := { stored : DB; working : DB }.

Definition SessionLocal (db : DB) : Session := {| stored := db; working := db |}.

(** One more than the largest key of a table, 1 for an empty table. *)
Definition next_id (ids : list Z) : Z :=
  match ids with
  | [] => 1
  | x :: ids => 1 + foldr Z.max x ids
  end.

(** The integers SQLite stores and binds: 64-bit signed. *)
Definition sqlite_integer (k : Z) : Prop := - 2 ^ 63 ≤ k < 2 ^ 63.

(** ** Handlers: state of the session and exceptions *)

Definition handler (A : Type) : Type := Session → outcome A * Session.

Definition ret {A} (a : A) : handler A := λ s, (Return a, s).

Definition raise {A} (e : exception) : handler A := λ s, (Raise e, s).

Definition bind {A B} (m : handler A) (k : A → handler B) : handler B :=
  λ s, match m s with
       | (Return a, s') => k a s'
       | (Raise e, s') => (Raise e, s')
       end.

Notation "x <- m ;; k" := (bind m (λ x, k))
  (at level 100, m at level 99, k at level 200, right associativity).
Notation "m ;;; k" := (bind m (λ _, k))
  (at level 100, k at level 200, right associativity).

(** The row a query by username finds, the row a lookup by key finds. *)
Definition user_by_username (username : string) (db : DB) : option User.t :=
  find (λ u, bool_decide (User.username u = username)) (users db).

Definition user_get (user_id : Z) (db : DB) : option User.t :=
  find (λ u, bool_decide (User.id u = user_id)) (users db).

Definition movie_get (movie_id : Z) (db : DB) : option Movie.t :=
  find (λ m, bool_decide (Movie.id m = movie_id)) (movies db).

(** [.offset(skip)]: OFFSET of the query; a negative offset skips nothing. *)
Definition offset {A} (skip : Z) (rows : list A) : list A :=
  drop (Z.to_nat skip) rows.

(** [.limit(limit)]: LIMIT of the query; SQLite reads a negative limit as
    no limit. *)
Definition limit {A} (n : Z) (rows : list A) : list A :=
  if n <? 0 then rows else take (Z.to_nat n) rows.

(** A parameter bound to a statement has to fit SQLite's integers. *)
Definition bind_integer (k : Z) : handler unit :=
  if bool_decide (sqlite_integer k) then ret ()
  else raise (OverflowError "Python int too large to convert to SQLite INTEGER").

(** [movie.title = title; movie.description = description] on the row the
    session loaded under key [movie_id]. *)
Definition set_title_description (movie_id : Z) (title description : string)
    (m : Movie.t) : Movie.t :=
  if bool_decide (Movie.id m = movie_id)
  then Movie.mk (Movie.id m) title description (Movie.user_id m)
  else m.

Definition write_movie (movie_id : Z) (title description : string) : handler unit :=
  λ s, let db := working s in
       (Return (), {| stored := stored s;
                      working := {| users := users db;
                                    movies := set_title_description movie_id title description
                                                <$> movies db |} |}).

(** [db.delete(movie)] *)
Definition delete_row (movie_id : Z) : handler unit :=
  λ s, let db := working s in
       (Return (), {| stored := stored s;
                      working := {| users := users db;
                                    movies := filter (λ m, Movie.id m ≠ movie_id) (movies db) |} |}).

(** [db.commit()] *)
Definition commit : handler unit :=
  λ s, (Return (), {| stored := working s; working := working s |}).

(** ** Bearer tokens *)

(** A bearer token as the JWS compact parser sees it: a string that does
    not split into header, payload and signature, or the algorithm of the
    header, the claims of the payload and the signature.  The claims are
    the integer-valued ones. *)
Inductive Token :=
| Unparsed (s : string)
| Jws (alg : string) (claims : gmap string Z) (signature : string).

(** The body of a successful response. *)
Record MovieOut := { out_id : Z; out_title : string; out_description : string }.

Inductive Body :=
| Message (message : string)
| AccessToken (access_token : Token) (token_type : string)
| MovieBody (movie : MovieOut)
| MovieList (movies : list MovieOut).

(** A request to one of the routes; a protected route carries the bearer
    token of its Authorization header, if it has one. *)
Inductive Request :=
| PostRegister (username password : string)
| PostToken (username password : string)
| GetMovies (skip limit : option Z)
| PostMovies (authorization : option Token) (title description : string)
| GetMovie (movie_id : Z)
| PutMovie (authorization : option Token) (movie_id : Z) (title description : string)
| DeleteMovie (authorization : option Token) (movie_id : Z).

(** What a request meets besides the stored tables: the clock and the salt
    a password hash would draw. *)
Record Env := { now : Z; salt : string }.

Definition ALGORITHM : string := "HS256".
Definition ACCESS_TOKEN_EXPIRE_MINUTES : Z := 30.

(** [timedelta(minutes=m)], in seconds. *)
Definition minutes (m : Z) : Z := 60 * m.

(** The claims [jwt.decode] checks after the signature, in its order: a
    token is not yet valid before its [nbf] and expired after its [exp];
    [aud], [sub] and [jti] have to be strings, and an [at_hash] needs an
    access token to compare with, so an integer-valued one of these is an
    error.  The message of the error, if there is one. *)
Definition validate_claims (claims : gmap string Z) (now : Z) : option string :=
  match claims !! "nbf" with
  | Some nbf => if now <? nbf then Some "The token is not yet valid (nbf)" else None
  | None => None
  end
  ∪ match claims !! "exp" with
    | Some exp => if exp <? now then Some "Signature has expired." else None
    | None => None
    end
  ∪ (if bool_decide (is_Some (claims !! "aud"))
     then Some "Invalid claim format in token" else None)
  ∪ (if bool_decide (is_Some (claims !! "sub"))
     then Some "Subject must be a string." else None)
  ∪ (if bool_decide (is_Some (claims !! "jti"))
     then Some "JWT ID must be a string." else None)
  ∪ (if bool_decide (is_Some (claims !! "at_hash"))
     then Some "No access_token provided to compare against at_hash claim."
     else None).

(** ** A small instance

    Stand-ins for what the libraries compute, and a few rows, on which the
    handlers can be run. *)

Definition demo_sign (key alg : string) (claims : gmap string Z) : string :=
  key +:+ "." +:+ alg +:+ "."
  +:+ foldr (λ kv acc, kv.1 +:+ "=" +:+ pretty kv.2 +:+ ";" +:+ acc) ""
            (map_to_list claims).

Definition demo_pwd_hash (salt password : string) : exception + string :=
  if bool_decide (4096 < String.length password)%nat
  then inl (ValueError "password exceeds maximum allowed size")
  else inr (salt +:+ "$" +:+ password).

Fixpoint after_dollar (s : string) : option string :=
  match s with
  | EmptyString => None
  | String c s' => if Ascii.eqb c "$"%char then Some s' else after_dollar s'
  end.

Definition demo_pwd_verify (plain_password hashed_password : string)
    : exception + bool :=
  match after_dollar hashed_password with
  | None => inl (ValueError "hash could not be identified")
  | Some digest => inr (String.eqb plain_password digest)
  end.

Definition demo_random_rowid (ids : list Z) : Z := 1 + Z.of_nat (length ids).

Definition demo_scan_before (a b : Movie.t) : bool := Movie.id a <=? Movie.id b.

Definition alice : User.t := User.mk 1 "alice" "s1$wonderland".
Definition bob : User.t := User.mk 2 "bob" "s2$builder".
Definition alien : Movie.t := Movie.mk 1 "Alien" "In space" 1.

Definition demo_db : DB := {| users := [alice; bob]; movies := [alien] |}.

Section Service.

(** The names bound in the module when a request runs, and the
    relationships its mapped classes declare. *)
Variable module_names : list string.
Variable relationships : list Relationship.

(** [os.environ.get("SECRET_KEY")] *)
Variable environ_SECRET_KEY : option string.

(** The MAC of a header and a payload under a key (HMAC with SHA-256 for
    ["HS256"]). *)
Variable sign : string → string → gmap string Z → string.

(** [pwd_context.hash], with the salt it draws, and [pwd_context.verify];
    either can raise instead of returning. *)
Variable pwd_hash : string → string → exception + string.
Variable pwd_verify : string → string → exception + bool.

(** The key SQLite draws for a row when the largest key of the table is
    the largest there is, and the order in which it scans the movies. *)
Variable random_rowid : list Z → Z.
Variable scan_before : Movie.t → Movie.t → bool.

Definition SECRET_KEY : string := default "your_secret_key" environ_SECRET_KEY.

(** The mappers are configured at the first use of a mapped class, a query
    or a constructor; when they cannot be, that use raises. *)
Definition configure_mappers : handler unit :=
  match mapper_failure relationships with
  | Some message => raise (SQLAlchemyError message)
  | None => ret ()
  end.

(** [db.query(User).filter_by(username=username).first()] *)
Definition query_user_by_username (username : string) : handler (option User.t) :=
  configure_mappers ;;;
  λ s, (Return (user_by_username username (working s)), s).

(** [db.query(User).get(user_id)] *)
Definition query_user_get (user_id : Z) : handler (option User.t) :=
  configure_mappers ;;;
  bind_integer user_id ;;;
  λ s, (Return (user_get user_id (working s)), s).

(** [db.query(Movie).get(movie_id)] *)
Definition query_movie_get (movie_id : Z) : handler (option Movie.t) :=
  configure_mappers ;;;
  bind_integer movie_id ;;;
  λ s, (Return (movie_get movie_id (working s)), s).

(** [db.query(Movie).offset(skip).limit(limit).all()]: there is no ORDER
    BY, the rows come in the order of the engine's scan. *)
Definition query_movies_page (skip lim : Z) : handler (list Movie.t) :=
  configure_mappers ;;;
  bind_integer lim ;;;
  bind_integer skip ;;;
  λ s, (Return (limit lim (offset skip (merge_sort (λ a b, scan_before a b)
                                                   (movies (working s))))), s).

(** The key an INSERT gives a row of a table with an INTEGER PRIMARY KEY:
    one more than the largest key in use; when that is the largest key
    there is, a key drawn at random, and the insert fails when the draw
    finds no unused one. *)
Definition new_rowid (ids : list Z) : exception + Z :=
  if bool_decide (next_id ids < 2 ^ 63) then inr (next_id ids)
  else
    let key := random_rowid ids in
    if bool_decide (0 < key < 2 ^ 63 ∧ key ∉ ids) then inr key
    else inl (SQLAlchemyError "database or disk is full").

(** [db.add(User(username=..., password=...))]; the row gets its key. *)
Definition add_user (username password : string) : handler User.t :=
  configure_mappers ;;;
  λ s, let db := working s in
       match new_rowid (User.id <$> users db) with
       | inl e => (Raise e, s)
       | inr key =>
           let u := User.mk key username password in
           (Return u, {| stored := stored s;
                         working := {| users := users db ++ [u];
                                       movies := movies db |} |})
       end.

(** [db.add(Movie(title=..., description=..., user_id=...))] *)
Definition add_movie (title description : string) (user_id : Z) : handler Movie.t :=
  configure_mappers ;;;
  λ s, let db := working s in
       match new_rowid (Movie.id <$> movies db) with
       | inl e => (Raise e, s)
       | inr key =>
           let m := Movie.mk key title description user_id in
           (Return m, {| stored := stored s;
                         working := {| users := users db;
                                       movies := movies db ++ [m] |} |})
       end.

(** [db_session_middleware]: its first statement calls [Response], a name
    the module has to bind; then a fresh session per request, closed when
    the handler is done, whatever it did: what stays is what was
    committed. *)
Definition db_session_middleware {A} (call_next : handler A) (db : DB)
    : outcome A * DB :=
  if bool_decide ("Response" ∈ module_names)
  then let (response, s) := call_next (SessionLocal db) in (response, stored s)
  else (Raise (NameError "Response"), db).

Definition verify_password (plain_password hashed_password : string)
    : exception + bool :=
  pwd_verify plain_password hashed_password.

Definition get_password_hash (salt password : string) : exception + string :=
  pwd_hash salt password.

(** [jwt.encode(claims, key, algorithm)] *)
Definition jwt_encode (claims : gmap string Z) (key alg : string) : Token :=
  Jws alg claims (sign key alg claims).

(** [jws.verify(token, key, algorithms)]: the algorithm of the header is
    one of [algorithms] and the signature is the MAC of header and
    payload under [key]. *)
Definition jws_verify (token : Token) (key : string) (algorithms : list string)
    : bool :=
  match token with
  | Unparsed _ => false
  | Jws alg claims signature =>
      bool_decide (alg ∈ algorithms)
      && bool_decide (signature = sign key alg claims)
  end.

(** [jwt.decode(token, key, algorithms)] at time [now]: the payload, or
    the message of the [JWTError].  The signature is checked first, then
    the claims. *)
Definition jwt_decode (token : Token) (key : string) (algorithms : list string)
    (now : Z) : string + gmap string Z :=
  if negb (jws_verify token key algorithms)
  then inl "Signature verification failed."
  else match token with
       | Unparsed _ => inl "Invalid payload string"
       | Jws _ claims _ =>
           match validate_claims claims now with
           | Some message => inl message
           | None => inr claims
           end
       end.

(** [create_access_token(data, expires_delta)] at time [now]; a delta
    that is [None] or zero is falsy. *)
Definition create_access_token (data : gmap string Z) (expires_delta : option Z)
    (now : Z) : Token :=
  let to_encode := data in
  let expire :=
    match expires_delta with
    | Some d => if bool_decide (d = 0) then now + minutes 15 else now + d
    | None => now + minutes 15
    end in
  let to_encode := <["exp" := expire]> to_encode in
  jwt_encode to_encode SECRET_KEY ALGORITHM.

Definition credentials_exception : HTTPException :=
  {| status_code := HTTP_401_UNAUTHORIZED;
     detail := "Could not validate credentials";
     headers := [("WWW-Authenticate", "Bearer")] |}.

(** [get_current_user(token, db)] at time [now]; only a [JWTError] is
    caught. *)
Definition get_current_user (token : Token) (now : Z) : handler User.t :=
  match jwt_decode token SECRET_KEY [ALGORITHM] now with
  | inl _ => raise credentials_exception
  | inr payload =>
      match payload !! "user_id" with
      | None => raise credentials_exception
      | Some user_id =>
          user <- query_user_get user_id ;;
          match user with
          | None => raise credentials_exception
          | Some user => ret user
          end
      end
  end.

(** [POST /register] *)
Definition register_user (username password salt : string) : handler Body :=
  user <- query_user_by_username username ;;
  match user with
  | Some _ =>
      raise {| status_code := 400; detail := "Username already taken"; headers := [] |}
  | None =>
      match get_password_hash salt password with
      | inl e => raise e
      | inr hashed_password =>
          _ <- add_user username hashed_password ;;
          commit ;;;
          ret (Message "User created successfully")
      end
  end.

(** [POST /token] at time [now]. *)
Definition login_for_access_token (username password : string) (now : Z)
    : handler Body :=
  user <- query_user_by_username username ;;
  match user with
  | None =>
      raise {| status_code := 401; detail := "Invalid credentials"; headers := [] |}
  | Some user =>
      match verify_password password (User.password user) with
      | inl e => raise e
      | inr verified =>
          if negb verified
          then raise {| status_code := 401; detail := "Invalid credentials";
                        headers := [] |}
          else
            let access_token_expires := minutes ACCESS_TOKEN_EXPIRE_MINUTES in
            let access_token :=
              create_access_token {["user_id" := User.id user]}
                                  (Some access_token_expires) now in
            ret (AccessToken access_token "bearer")
      end
  end.

Definition summary (movie : Movie.t) : MovieOut :=
  {| out_id := Movie.id movie; out_title := Movie.title movie;
     out_description := Movie.description movie |}.

(** [GET /movies/], [skip] and [limit] already defaulted. *)
Definition get_movies (skip lim : Z) : handler Body :=
  movies <- query_movies_page skip lim ;;
  ret (MovieList (summary <$> movies)).

(** [POST /movies/], [user] being what [get_current_user] resolved. *)
Definition create_movie (title description : string) (user : User.t)
    : handler Body :=
  movie <- add_movie title description (User.id user) ;;
  commit ;;;
  ret (MovieBody (summary movie)).

Definition not_found : HTTPException :=
  {| status_code := 404; detail := "Movie not found"; headers := [] |}.

Definition not_found_or_not_authorized : HTTPException :=
  {| status_code := 404; detail := "Movie not found or not authorized";
     headers := [] |}.

(** [GET /movies/{movie_id}] *)
Definition get_movie (movie_id : Z) : handler Body :=
  movie <- query_movie_get movie_id ;;
  match movie with
  | None => raise not_found
  | Some movie => ret (MovieBody (summary movie))
  end.

(** [PUT /movies/{movie_id}] *)
Definition update_movie (movie_id : Z) (title description : string)
    (user : User.t) : handler Body :=
  movie <- query_movie_get movie_id ;;
  match movie with
  | None => raise not_found_or_not_authorized
  | Some movie =>
      if bool_decide (Movie.user_id movie ≠ User.id user)
      then raise not_found_or_not_authorized
      else
        write_movie (Movie.id movie) title description ;;;
        commit ;;;
        ret (MovieBody {| out_id := Movie.id movie; out_title := title;
                          out_description := description |})
  end.

(** [DELETE /movies/{movie_id}] *)
Definition delete_movie (movie_id : Z) (user : User.t) : handler Body :=
  movie <- query_movie_get movie_id ;;
  match movie with
  | None => raise not_found_or_not_authorized
  | Some movie =>
      if bool_decide (Movie.user_id movie ≠ User.id user)
      then raise not_found_or_not_authorized
      else
        delete_row (Movie.id movie) ;;;
        commit ;;;
        ret (Message "Movie deleted successfully")
  end.

(** [oauth2_scheme]: the bearer token of the request, 401 without one. *)
Definition oauth2_scheme (authorization : option Token) : handler Token :=
  match authorization with
  | Some token => ret token
  | None => raise {| status_code := HTTP_401_UNAUTHORIZED;
                     detail := "Not authenticated";
                     headers := [("WWW-Authenticate", "Bearer")] |}
  end.

(** The route table, with the dependencies of each route resolved and the
    defaults of the query parameters filled in. *)
Definition route (req : Request) (env : Env) : handler Body :=
  match req with
  | PostRegister username password =>
      register_user username password (salt env)
  | PostToken username password =>
      login_for_access_token username password (now env)
  | GetMovies skip lim =>
      get_movies (default 0 skip) (default 10 lim)
  | PostMovies authorization title description =>
      token <- oauth2_scheme authorization ;;
      user <- get_current_user token (now env) ;;
      create_movie title description user
  | GetMovie movie_id =>
      get_movie movie_id
  | PutMovie authorization movie_id title description =>
      token <- oauth2_scheme authorization ;;
      user <- get_current_user token (now env) ;;
      update_movie movie_id title description user
  | DeleteMovie authorization movie_id =>
      token <- oauth2_scheme authorization ;;
      user <- get_current_user token (now env) ;;
      delete_movie movie_id user
  end.

(** One request served by the application. *)
Definition app (req : Request) (env : Env) (db : DB) : outcome Body * DB :=
  db_session_middleware (route req env) db.

(** The stored tables after a sequence of requests, served one by one. *)
Fixpoint serve_all (reqs : list (Request * Env)) (db : DB) : DB :=
  match reqs with
  | [] => db
  | (req, env) :: reqs => serve_all reqs (snd (app req env db))
  end.

(** ** The stored tables after a request

    Names for what the handlers leave behind, used to state the properties
    below. *)

(** The users table after a registration that found the username free. *)
Definition registered (db : DB) (key : Z) (username hashed_password : string) : DB :=
  {| users := users db ++ [User.mk key username hashed_password];
     movies := movies db |}.

(** The movies table after a creation. *)
Definition created (db : DB) (key : Z) (title description : string) (user_id : Z)
    : DB :=
  {| users := users db;
     movies := movies db ++ [Movie.mk key title description user_id] |}.

(** The movies table after the owner's update and after a deletion. *)
Definition updated (db : DB) (movie_id : Z) (title description : string) : DB :=
  {| users := users db;
     movies := set_title_description movie_id title description <$> movies db |}.

Definition deleted (db : DB) (movie_id : Z) : DB :=
  {| users := users db;
     movies := filter (λ m, Movie.id m ≠ movie_id) (movies db) |}.

(** What one request can do to the stored tables. *)
Inductive effect (db : DB) : DB → Prop :=
| effect_none : effect db db
| effect_registered key username hashed_password :
    user_by_username username db = None →
    key ∉ User.id <$> users db →
    effect db (registered db key username hashed_password)
| effect_created key title description user :
    user ∈ users db →
    effect db (created db key title description (User.id user))
| effect_updated movie_id title description :
    effect db (updated db movie_id title description)
| effect_deleted movie_id :
    effect db (deleted db movie_id).

(** The users table as the schema wants it: no key and no username
    twice. *)
Definition users_unique (db : DB) : Prop :=
  NoDup (User.id <$> users db)
  ∧ NoDup (User.username <$> users db).

(** Every movie row points to a stored user. *)
Definition owners_exist (db : DB) : Prop :=
  ∀ m, m ∈ movies db → ∃ u, u ∈ users db ∧ User.id u = Movie.user_id m.

(** ** Properties *)

(** Unfolds a handler down to the tables it reads and writes. *)
Ltac run_handler :=
  unfold app, route, update_movie, delete_movie,
    create_movie, get_movie, get_movies, register_user,
    login_for_access_token, oauth2_scheme, get_current_user,
    query_movie_get, query_user_get, query_user_by_username,
    query_movies_page, add_user, add_movie, write_movie, delete_row,
    commit, bind_integer, configure_mappers, bind, ret, raise, SessionLocal;
  simpl.

Lemma next_id_above (ids : list Z) (x : Z) : x ∈ ids → x < next_id ids.
Proof.
  unfold next_id. destruct ids as [|y ids]; intros Hin.
  - by apply elem_of_nil in Hin.
  - revert y Hin. induction ids as [|z ids IH]; intros y Hin; simpl.
    + apply list_elem_of_singleton in Hin. lia.
    + apply elem_of_cons in Hin as [->|Hin].
      * specialize (IH y). assert (y < 1 + foldr Z.max y ids).
        { apply IH, elem_of_cons. by left. }
        lia.
      * apply elem_of_cons in Hin as [->|Hin].
        -- lia.
        -- assert (x < 1 + foldr Z.max y ids).
           { apply IH, elem_of_cons. by right. }
           lia.
Qed.

Lemma new_rowid_fresh (ids : list Z) (key : Z) :
  new_rowid ids = inr key → key ∉ ids.
Proof.
  unfold new_rowid. case_bool_decide as Hin.
  - intros [= <-] Hmem. apply next_id_above in Hmem. lia.
  - case_bool_decide as Hdrawn; [|done]. intros [= <-]. by destruct Hdrawn.
Qed.

Lemma find_app_l {A} (f : A → bool) (l1 l2 : list A) (a : A) :
  find f l1 = Some a → find f (l1 ++ l2) = Some a.
Proof.
  induction l1 as [|b l1 IH]; simpl; [done|].
  destruct (f b); [done | exact IH].
Qed.

Lemma find_none_all {A} (f : A → bool) (l : list A) :
  find f l = None → ∀ b, b ∈ l → f b = false.
Proof.
  induction l as [|c l IH]; simpl; intros Hf b Hb.
  - by apply elem_of_nil in Hb.
  - destruct (f c) eqn:Hc; [done|].
    apply elem_of_cons in Hb as [->|Hb]; [done | by apply IH].
Qed.

Lemma find_some_holds {A} (f : A → bool) (l : list A) (a : A) :
  find f l = Some a → a ∈ l ∧ f a = true.
Proof.
  induction l as [|c l IH]; simpl; [done|].
  destruct (f c) eqn:Hc.
  - intros [= ->]. split; [apply elem_of_cons; by left | done].
  - intros Hf. destruct (IH Hf) as [? ?]. split; [apply elem_of_cons; by right | done].
Qed.

Lemma find_fmap_same {A} (f : A → bool) (g : A → A) (l : list A) :
  (∀ x, f (g x) = f x) → find f (g <$> l) = g <$> find f l.
Proof.
  intros Hfg. induction l as [|a l IH]; simpl; [done|].
  rewrite Hfg. by destruct (f a).
Qed.

Lemma find_filter_keep {A} (f : A → bool) (P : A → Prop)
    `{∀ x, Decision (P x)} (l : list A) :
  (∀ x, f x = true → P x) → find f (filter P l) = find f l.
Proof.
  intros HfP. induction l as [|a l IH]; [done|].
  destruct (decide (P a)) as [HP|HP].
  - rewrite filter_cons_True by done. simpl. by rewrite IH.
  - rewrite filter_cons_False by done. simpl.
    destruct (f a) eqn:Hfa; [|done]. destruct HP. by apply HfP.
Qed.

Lemma find_filter_drop {A} (f : A → bool) (P : A → Prop)
    `{∀ x, Decision (P x)} (l : list A) :
  (∀ x, P x → f x = false) → find f (filter P l) = None.
Proof.
  intros HPf. induction l as [|a l IH]; [done|].
  destruct (decide (P a)) as [HP|HP].
  - rewrite filter_cons_True by done. simpl. by rewrite HPf.
  - by rewrite filter_cons_False.
Qed.

Lemma find_elem_some {A} (f : A → bool) (l : list A) (a : A) :
  a ∈ l → f a = true → ∃ b, find f l = Some b ∧ f b = true.
Proof.
  intros Ha Hfa. induction l as [|c l IH]; [by apply elem_of_nil in Ha|].
  simpl. destruct (f c) eqn:Hc; [by exists c|].
  apply elem_of_cons in Ha as [->|Ha]; [congruence | by apply IH].
Qed.

Lemma movie_get_id (db : DB) (movie_id : Z) (M : Movie.t) :
  movie_get movie_id db = Some M → Movie.id M = movie_id.
Proof.
  intros Hget. apply find_some_holds in Hget as [_ Hid].
  by apply bool_decide_eq_true in Hid.
Qed.

(** *** What each handler does to its session *)

(** A handler that has run on the fresh session of a request: it raised
    and left the session as it was, or it returned with the tables of
    [db'] committed. *)
Definition ends_in {A} (db : DB) (res : outcome A * Session) (db' : DB) : Prop :=
  res.2 = SessionLocal db' ∧ (∀ e, res.1 = Raise e → db' = db).

Lemma query_user_get_reads (user_id : Z) (s : Session) :
  (∃ e, query_user_get user_id s = (Raise e, s))
  ∨ query_user_get user_id s = (Return (user_get user_id (working s)), s).
Proof.
  run_handler. destruct (mapper_failure relationships); simpl; [left; by eexists|].
  case_bool_decide; simpl; [by right | left; by eexists].
Qed.

Lemma query_movie_get_reads (movie_id : Z) (s : Session) :
  (∃ e, query_movie_get movie_id s = (Raise e, s))
  ∨ query_movie_get movie_id s = (Return (movie_get movie_id (working s)), s).
Proof.
  run_handler. destruct (mapper_failure relationships); simpl; [left; by eexists|].
  case_bool_decide; simpl; [by right | left; by eexists].
Qed.

Lemma get_current_user_cases (token : Token) (t : Z) (s : Session) :
  (∃ e, get_current_user token t s = (Raise e, s))
  ∨ (∃ user, get_current_user token t s = (Return user, s)
             ∧ user ∈ users (working s)
             ∧ jws_verify token SECRET_KEY [ALGORITHM] = true).
Proof.
  unfold get_current_user, jwt_decode.
  destruct (jws_verify token SECRET_KEY [ALGORITHM]); simpl; [|left; by eexists].
  destruct token as [?|alg claims sig]; [left; by eexists|].
  destruct (validate_claims claims t); [left; by eexists|].
  destruct (claims !! "user_id") as [uid|]; [|left; by eexists].
  unfold bind.
  destruct (query_user_get_reads uid s) as [[e ->]| ->]; [left; by eexists|].
  destruct (user_get uid (working s)) as [u|] eqn:Hu; [|left; by eexists].
  right. exists u. split; [done|]. split; [|done].
  by apply find_some_holds in Hu as [? _].
Qed.

Lemma get_current_user_reads (token : Token) (t : Z) (s : Session) :
  snd (get_current_user token t s) = s.
Proof.
  by destruct (get_current_user_cases token t s) as [[e ->]|(u & -> & _)].
Qed.

Lemma login_reads (username password : string) (t : Z) (s : Session) :
  snd (login_for_access_token username password t s) = s.
Proof.
  run_handler. destruct (mapper_failure relationships); simpl; [done|].
  destruct (user_by_username username (working s)) as [u|]; simpl; [|done].
  destruct (verify_password password (User.password u)) as [e|[]]; by simpl.
Qed.

Lemma register_user_ends (db : DB) (username password salt : string) :
  ∃ db', ends_in db (register_user username password salt (SessionLocal db)) db'
         ∧ effect db db'.
Proof.
  unfold ends_in. run_handler.
  destruct (mapper_failure relationships); simpl; [exists db; by repeat constructor|].
  destruct (user_by_username username db) eqn:Hfree; simpl;
    [exists db; by repeat constructor|].
  destruct (get_password_hash salt password) as [e|h]; simpl;
    [exists db; by repeat constructor|].
  destruct (new_rowid (User.id <$> users db)) as [e|key] eqn:Hkey; simpl;
    [exists db; by repeat constructor|].
  exists (registered db key username h). split; [by split|].
  constructor; [done|]. by apply new_rowid_fresh.
Qed.

Lemma create_movie_ends (db : DB) (title description : string) (user : User.t) :
  user ∈ users db →
  ∃ db', ends_in db (create_movie title description user (SessionLocal db)) db'
         ∧ effect db db'.
Proof.
  intros Huser. unfold ends_in. run_handler.
  destruct (mapper_failure relationships); simpl; [exists db; by repeat constructor|].
  destruct (new_rowid (Movie.id <$> movies db)) as [e|key]; simpl;
    [exists db; by repeat constructor|].
  exists (created db key title description (User.id user)).
  split; [by split|]. by constructor.
Qed.

Lemma update_movie_ends (db : DB) (movie_id : Z) (title description : string)
    (user : User.t) :
  ∃ db', ends_in db (update_movie movie_id title description user (SessionLocal db)) db'
         ∧ effect db db'.
Proof.
  unfold ends_in, update_movie, bind.
  destruct (query_movie_get_reads movie_id (SessionLocal db)) as [[e ->]| ->];
    [exists db; by repeat constructor|].
  simpl. destruct (movie_get movie_id db) as [m|]; [|exists db; by repeat constructor].
  case_bool_decide; [exists db; by repeat constructor|]. simpl.
  exists (updated db (Movie.id m) title description).
  split; [by split|]. constructor.
Qed.

Lemma delete_movie_ends (db : DB) (movie_id : Z) (user : User.t) :
  ∃ db', ends_in db (delete_movie movie_id user (SessionLocal db)) db'
         ∧ effect db db'.
Proof.
  unfold ends_in, delete_movie, bind.
  destruct (query_movie_get_reads movie_id (SessionLocal db)) as [[e ->]| ->];
    [exists db; by repeat constructor|].
  simpl. destruct (movie_get movie_id db) as [m|]; [|exists db; by repeat constructor].
  case_bool_decide; [exists db; by repeat constructor|]. simpl.
  exists (deleted db (Movie.id m)).
  split; [by split|]. constructor.
Qed.

Lemma get_movie_reads (movie_id : Z) (s : Session) :
  snd (get_movie movie_id s) = s.
Proof.
  unfold get_movie, bind.
  destruct (query_movie_get_reads movie_id s) as [[e ->]| ->]; [done|].
  by destruct (movie_get movie_id (working s)).
Qed.

Lemma get_movies_reads (skip lim : Z) (s : Session) :
  snd (get_movies skip lim s) = s.
Proof.
  run_handler. destruct (mapper_failure relationships); simpl; [done|].
  by repeat (case_bool_decide; simpl).
Qed.

(** A protected route stops at its guard, with the session untouched, or
    runs its handler for a stored user that the token resolved to. *)
Lemma guarded_cases {A} (authorization : option Token) (t : Z)
    (h : User.t → handler A) (s : Session) :
  let guarded := (token <- oauth2_scheme authorization ;;
                  user <- get_current_user token t ;; h user) in
  (∃ e, guarded s = (Raise e, s))
  ∨ (∃ user, user ∈ users (working s) ∧ guarded s = h user s).
Proof.
  simpl. unfold oauth2_scheme.
  destruct authorization as [token|]; [|left; by eexists].
  unfold bind at 1, ret. cbn beta iota. unfold bind.
  destruct (get_current_user_cases token t s) as [[e ->]|(user & -> & Hin & _)].
  - left. by exists e.
  - right. by exists user.
Qed.

Lemma route_ends (req : Request) (env : Env) (db : DB) :
  ∃ db', ends_in db (route req env (SessionLocal db)) db' ∧ effect db db'.
Proof.
  assert (Hread : ∀ (res : outcome Body * Session),
            res.2 = SessionLocal db → ∃ db', ends_in db res db' ∧ effect db db').
  { intros res Hres. exists db. split; [by split | constructor]. }
  destruct req as [u p|u p|skip lim|auth t d|mid|auth mid t d|auth mid];
    unfold route.
  - apply register_user_ends.
  - apply Hread, login_reads.
  - apply Hread, get_movies_reads.
  - destruct (guarded_cases auth (now env) (create_movie t d) (SessionLocal db))
      as [[e ->]|(user & Hin & ->)]; [by apply Hread|].
    by apply create_movie_ends.
  - apply Hread, get_movie_reads.
  - destruct (guarded_cases auth (now env) (update_movie mid t d) (SessionLocal db))
      as [[e ->]|(user & Hin & ->)]; [by apply Hread|].
    apply update_movie_ends.
  - destruct (guarded_cases auth (now env) (delete_movie mid) (SessionLocal db))
      as [[e ->]|(user & Hin & ->)]; [by apply Hread|].
    apply delete_movie_ends.
Qed.

Lemma middleware_stored {A} (h : handler A) (db db' : DB) :
  ends_in db (h (SessionLocal db)) db' →
  snd (db_session_middleware h db) = db' ∨ snd (db_session_middleware h db) = db.
Proof.
  intros [Hs _]. unfold db_session_middleware.
  case_bool_decide; [|by right].
  destruct (h (SessionLocal db)) as [r s]. simpl in *. subst s. by left.
Qed.

Lemma app_effect (req : Request) (env : Env) (db : DB) :
  effect db (snd (app req env db)).
Proof.
  destruct (route_ends req env db) as (db' & Hends & Heff).
  unfold app. destruct (middleware_stored _ _ _ Hends) as [-> | ->];
    [done | constructor].
Qed.

Lemma login_run_stored (db : DB) (username password : string) (t : Z) :
  snd (db_session_middleware (login_for_access_token username password t) db) = db.
Proof.
  unfold db_session_middleware. case_bool_decide; [|done].
  pose proof (login_reads username password t (SessionLocal db)) as Hs.
  destruct (login_for_access_token username password t (SessionLocal db)) as [r s'].
  simpl in *. by subst s'.
Qed.

(** C10. login_for_access_token leaves the stored users and movies as they
    were, whether it issues a token or raises; it does not even touch the
    working copy of its session. *)
Theorem login_changes_nothing
    (db : DB) (s : Session) (username password : string) (t : Z) :
  snd (db_session_middleware (login_for_access_token username password t) db) = db
  ∧ snd (login_for_access_token username password t s) = s
  ∧ snd (app (PostToken username password) {| now := t; salt := "" |} db) = db.
Proof.
  split; [apply login_run_stored|].
  split; [apply login_reads|].
  unfold app, route. simpl. apply login_run_stored.
Qed.

(** C3. A token whose signature does not verify under the server secret is
    rejected with 401 by get_current_user, at any time and whatever claims
    its payload carries; the session is not touched. *)
Theorem unverified_token_rejected (token : Token) (t : Z) (s : Session) :
  jws_verify token SECRET_KEY [ALGORITHM] = false →
  get_current_user token t s = (Raise credentials_exception, s)
  ∧ status_code credentials_exception = 401.
Proof.
  intros Hsig. split; [|done].
  unfold get_current_user, jwt_decode. by rewrite Hsig.
Qed.

(** A movie that is still stored after a request has the key and the owner
    it had before. *)
Lemma effect_keeps_owner (db db' : DB) (movie_id : Z) (M : Movie.t) :
  effect db db' →
  movie_get movie_id db = Some M →
  movie_get movie_id db' = None
  ∨ ∃ M', movie_get movie_id db' = Some M'
          ∧ Movie.user_id M' = Movie.user_id M ∧ Movie.id M' = Movie.id M.
Proof.
  intros Heff Hget. destruct Heff as [|key u h Hu Hkey|key t d user Huser|mid t d|mid].
  - right. by exists M.
  - right. by exists M.
  - right. exists M. split; [|done]. by apply find_app_l.
  - right. unfold movie_get, updated. simpl.
    rewrite find_fmap_same.
    + unfold movie_get in Hget. rewrite Hget. simpl. eexists. split; [done|].
      unfold set_title_description. by case_bool_decide.
    + intros x. unfold set_title_description.
      by destruct (bool_decide (Movie.id x = mid)).
  - destruct (decide (movie_id = mid)) as [->|Hne].
    + left. unfold movie_get, deleted. simpl. apply find_filter_drop.
      intros x Hx. by apply bool_decide_eq_false.
    + right. exists M. split; [|done]. unfold movie_get, deleted. simpl.
      rewrite find_filter_keep; [done|].
      intros x Hx. apply bool_decide_eq_true in Hx. congruence.
Qed.

(** C8. Through any sequence of requests a stored movie keeps the owner
    (and the key) it has, for as long as it is stored: either some request
    of the sequence removed it, or it is there at the end under the same
    user_id and id. *)
Theorem owner_never_changes
    (db : DB) (movie_id : Z) (M : Movie.t) (reqs : list (Request * Env)) :
  movie_get movie_id db = Some M →
  (∃ k, movie_get movie_id (serve_all (take k reqs) db) = None)
  ∨ ∃ M', movie_get movie_id (serve_all reqs db) = Some M'
          ∧ Movie.user_id M' = Movie.user_id M ∧ Movie.id M' = Movie.id M.
Proof.
  revert db M. induction reqs as [|[req env] reqs IH]; intros db M Hget; simpl.
  - right. by exists M.
  - destruct (effect_keeps_owner _ _ _ _ (app_effect req env db) Hget)
      as [Hgone|(M1 & Hget1 & Hown1 & Hid1)].
    + left. by exists 1%nat.
    + destruct (IH _ _ Hget1) as [[k Hgone]|(M' & Hget' & Hown' & Hid')].
      * left. by exists (S k).
      * right. exists M'. split; [done|]. split; congruence.
Qed.

(** ** Further properties of the handlers *)

(** X1. A request that is answered with an exception has stored nothing. *)
Theorem failed_request_stores_nothing
    (req : Request) (env : Env) (db : DB) (e : exception) :
  fst (app req env db) = Raise e → snd (app req env db) = db.
Proof.
  destruct (route_ends req env db) as (db' & [Hs Hraise] & _).
  unfold app, db_session_middleware. case_bool_decide; [|done].
  destruct (route req env (SessionLocal db)) as [r s]. simpl in *. subst s.
  intros Hr. simpl. by apply (Hraise e).
Qed.

(** No request removes or rewrites a user: the users table only grows at
    its end. *)
Lemma effect_users_grow (db db' : DB) :
  effect db db' → ∃ l, users db' = users db ++ l.
Proof.
  intros [|key u h Hu Hkey|key t d user Huser|mid t d|mid]; simpl;
    try (exists []; by rewrite (right_id_L [] (++))).
  by eexists.
Qed.

Lemma serve_all_users_grow (reqs : list (Request * Env)) (db : DB) :
  ∃ l, users (serve_all reqs db) = users db ++ l.
Proof.
  revert db. induction reqs as [|[req env] reqs IH]; intros db; simpl.
  - exists []. by rewrite (right_id_L [] (++)).
  - destruct (IH (snd (app req env db))) as [l2 ->].
    destruct (effect_users_grow _ _ (app_effect req env db)) as [l1 ->].
    exists (l1 ++ l2). by rewrite app_assoc.
Qed.

(** X2. No sequence of requests removes a user or changes a user row: a
    user found under a key or under a username is found there, unchanged,
    ever after. *)
Theorem users_are_never_changed
    (reqs : list (Request * Env)) (db : DB) (u : User.t) (key : Z) (name : string) :
  users db `prefix_of` users (serve_all reqs db)
  ∧ (user_get key db = Some u → user_get key (serve_all reqs db) = Some u)
  ∧ (user_by_username name db = Some u
     → user_by_username name (serve_all reqs db) = Some u).
Proof.
  destruct (serve_all_users_grow reqs db) as [l Hl].
  unfold user_get, user_by_username. rewrite Hl.
  split; [by exists l|]. split; apply find_app_l.
Qed.

Lemma effect_users_unique (db db' : DB) :
  effect db db' → users_unique db → users_unique db'.
Proof.
  unfold users_unique.
  intros [|key u h Hfree Hkey|key t d user Huser|mid t d|mid] [Hids Hnames];
    simpl; try done.
  rewrite !fmap_app. simpl. split.
  - apply NoDup_app. split; [done|]. split; [|apply NoDup_singleton].
    intros x Hx Hnew. apply list_elem_of_singleton in Hnew as ->. by destruct Hkey.
  - apply NoDup_app. split; [done|]. split; [|apply NoDup_singleton].
    intros name Hname Hnew. apply list_elem_of_singleton in Hnew as ->.
    apply list_elem_of_fmap in Hname as (x & Hx & Hin).
    pose proof (find_none_all _ _ Hfree x Hin) as Hf. simpl in Hf.
    by apply bool_decide_eq_false in Hf.
Qed.

(** X4. The check before the insert keeps the users table as its schema
    declares it: through any sequence of requests no user key is used twice
    and no username is stored twice. *)
Theorem usernames_stay_unique (reqs : list (Request * Env)) (db : DB) :
  users_unique db →
  users_unique (serve_all reqs db)
  ∧ NoDup (User.id <$> users (serve_all reqs db))
  ∧ ∀ u1 u2, u1 ∈ users (serve_all reqs db) → u2 ∈ users (serve_all reqs db) →
             User.username u1 = User.username u2 → u1 = u2.
Proof.
  intros Hok.
  assert (Hafter : users_unique (serve_all reqs db)).
  { revert db Hok. induction reqs as [|[req env] reqs IH]; intros db Hok; simpl.
    - done.
    - apply IH. eapply effect_users_unique; [apply app_effect | done]. }
  split; [done|]. destruct Hafter as [Hids Hnames]. split; [done|].
  intros u1 u2 Hu1 Hu2 Heq.
  apply list_elem_of_lookup in Hu1 as [i Hi], Hu2 as [j Hj].
  assert (i = j) as ->; [|congruence].
  eapply NoDup_lookup; [exact Hnames| |].
  - rewrite list_lookup_fmap, Hi. done.
  - rewrite list_lookup_fmap, Hj. simpl. by rewrite Heq.
Qed.

Lemma effect_owners_exist (db db' : DB) :
  effect db db' → owners_exist db → owners_exist db'.
Proof.
  intros [|key u h Hfree Hkey|key t d user Huser|mid t d|mid] Hok; try done.
  - intros m Hm. destruct (Hok m Hm) as (x & Hx & Hid).
    exists x. split; [|done]. unfold registered. simpl.
    apply elem_of_app. by left.
  - intros m Hm. unfold created in Hm. simpl in Hm.
    apply elem_of_app in Hm as [Hm|Hm]; [by apply Hok|].
    apply list_elem_of_singleton in Hm as ->. by exists user.
  - intros m Hm. unfold updated in Hm. simpl in Hm.
    apply list_elem_of_fmap in Hm as (m1 & -> & Hm1).
    destruct (Hok m1 Hm1) as (x & Hx & Hid). exists x. split; [done|].
    unfold set_title_description. by case_bool_decide.
  - intros m Hm. unfold deleted in Hm. simpl in Hm.
    apply list_elem_of_filter in Hm as [_ Hm]. by apply Hok.
Qed.

(** X5. The user_id of every movie row is the key of a stored user, and
    stays so through any sequence of requests: a movie is created for the
    user its token resolved to, and no request removes a user. *)
Theorem every_movie_has_a_stored_owner (reqs : list (Request * Env)) (db : DB) :
  owners_exist db →
  owners_exist (serve_all reqs db)
  ∧ ∀ movie_id M, movie_get movie_id (serve_all reqs db) = Some M →
      ∃ u, user_get (Movie.user_id M) (serve_all reqs db) = Some u
           ∧ User.id u = Movie.user_id M.
Proof.
  intros Hok.
  assert (Hafter : owners_exist (serve_all reqs db)).
  { revert db Hok. induction reqs as [|[req env] reqs IH]; intros db Hok; simpl.
    - done.
    - apply IH. eapply effect_owners_exist; [apply app_effect | done]. }
  split; [done|].
  intros movie_id M HM. apply find_some_holds in HM as [HM _].
  destruct (Hafter M HM) as (x & Hx & Hid).
  destruct (find_elem_some (λ u, bool_decide (User.id u = Movie.user_id M))
              (users (serve_all reqs db)) x Hx) as (u & Hu & Hu').
  { by apply bool_decide_eq_true. }
  exists u. split; [done|]. by apply bool_decide_eq_true in Hu'.
Qed.

(** X7. A token whose payload has no user_id claim is rejected with 401
    whatever its signature and expiry are. *)
Theorem token_without_user_id_rejected
    (alg signature : string) (claims : gmap string Z) (t : Z) (s : Session) :
  claims !! "user_id" = None →
  get_current_user (Jws alg claims signature) t s = (Raise credentials_exception, s).
Proof.
  intros Hnone. unfold get_current_user, jwt_decode.
  destruct (jws_verify _ _ _); simpl; [|done].
  destruct (validate_claims claims t); [done|]. by rewrite Hnone.
Qed.

(** X9. Only HS256 is accepted: a token whose header names another
    algorithm is rejected with 401, even when its signature is the MAC of
    its header and payload under the server secret. *)
Theorem other_algorithm_rejected
    (alg signature : string) (claims : gmap string Z) (t : Z) (s : Session) :
  alg ≠ "HS256" →
  get_current_user (Jws alg claims signature) t s = (Raise credentials_exception, s)
  ∧ get_current_user (jwt_encode claims SECRET_KEY alg) t s
    = (Raise credentials_exception, s).
Proof.
  intros Halg.
  assert (Hrej : ∀ sig, get_current_user (Jws alg claims sig) t s
                        = (Raise credentials_exception, s)).
  { intros sig. unfold get_current_user, jwt_decode, jws_verify.
    rewrite bool_decide_false; [done|].
    intros Hin. apply list_elem_of_singleton in Hin. by destruct Halg. }
  split; apply Hrej.
Qed.

Lemma middleware_reads {A} (h : handler A) (db : DB) :
  (∀ s, snd (h s) = s) → snd (db_session_middleware h db) = db.
Proof.
  intros Hh. unfold db_session_middleware. case_bool_decide; [|done].
  specialize (Hh (SessionLocal db)).
  destruct (h (SessionLocal db)) as [r s]. simpl in *. by subst s.
Qed.

(** X17. The two GET routes store nothing, whether they answer with a
    body or with an error. *)
Theorem get_routes_store_nothing
    (db : DB) (env : Env) (skip lim : option Z) (movie_id : Z) :
  snd (app (GetMovies skip lim) env db) = db
  ∧ snd (app (GetMovie movie_id) env db) = db.
Proof.
  unfold app, route. split; apply middleware_reads; intros s.
  - apply get_movies_reads.
  - apply get_movie_reads.
Qed.

(** *** When a name is not bound, when the mappers cannot be configured *)

Lemma middleware_unbound {A} (h : handler A) (db : DB) :
  "Response" ∉ module_names →
  db_session_middleware h db = (Raise (NameError "Response"), db).
Proof. intros Hnot. unfold db_session_middleware. by rewrite bool_decide_false. Qed.

Lemma unconfigured_handlers (message : string) (s : Session) :
  mapper_failure relationships = Some message →
  (∀ username password salt,
     register_user username password salt s = (Raise (SQLAlchemyError message), s))
  ∧ (∀ username password t,
       login_for_access_token username password t s
       = (Raise (SQLAlchemyError message), s))
  ∧ (∀ skip lim, get_movies skip lim s = (Raise (SQLAlchemyError message), s))
  ∧ (∀ title description user,
       create_movie title description user s = (Raise (SQLAlchemyError message), s))
  ∧ (∀ movie_id, get_movie movie_id s = (Raise (SQLAlchemyError message), s))
  ∧ (∀ movie_id title description user,
       update_movie movie_id title description user s
       = (Raise (SQLAlchemyError message), s))
  ∧ (∀ movie_id user,
       delete_movie movie_id user s = (Raise (SQLAlchemyError message), s)).
Proof.
  intros Hfail. repeat split; intros; run_handler; by rewrite Hfail.
Qed.

Lemma jws_verify_issued (data : gmap string Z) (expires_delta : option Z) (T : Z) :
  jws_verify (create_access_token data expires_delta T) SECRET_KEY [ALGORITHM] = true.
Proof.
  unfold create_access_token, jwt_encode, jws_verify.
  apply andb_true_iff. split; apply bool_decide_eq_true; [|done].
  apply elem_of_cons. by left.
Qed.

(** The guard on the token of a login: after the expiry it answers 401;
    up to the expiry it goes on to look the user up. *)
Lemma get_current_user_issued (user_id T t : Z) (s : Session) :
  get_current_user
    (create_access_token {["user_id" := user_id]}
                         (Some (minutes ACCESS_TOKEN_EXPIRE_MINUTES)) T) t s
  = if T + minutes 30 <? t then (Raise credentials_exception, s)
    else (user <- query_user_get user_id ;;
          match user with
          | None => raise credentials_exception
          | Some user => ret user
          end) s.
Proof.
  unfold get_current_user, jwt_decode.
  rewrite jws_verify_issued. simpl.
  unfold create_access_token, jwt_encode. simpl.
  change (minutes ACCESS_TOKEN_EXPIRE_MINUTES) with (minutes 30).
  unfold validate_claims.
  rewrite lookup_insert_eq.
  rewrite !lookup_insert_ne by done. rewrite !lookup_singleton_ne by done.
  rewrite !bool_decide_false by (by intros [? ?]).
  destruct (T + minutes 30 <? t); simpl; [done|].
  by rewrite lookup_insert_ne, lookup_singleton_eq.
Qed.

End Service.

(** ** The program as it is written

    With the names the file binds and the relationships it declares, the
    middleware raises at its first statement, and a handler called past the
    middleware raises at its first use of a mapped class. *)

Lemma Response_is_not_bound : "Response" ∉ module_names_of_source.
Proof. apply (bool_decide_unpack _). vm_compute. exact I. Qed.

Lemma mappers_of_source_fail :
  mapper_failure relationships_of_source
  = Some "Comment.parent and back-reference Comment.replies are both of the same direction".
Proof. reflexivity. Qed.

Section AsWritten.

Variable environ_SECRET_KEY : option string.
Variable sign : string → string → gmap string Z → string.
Variable pwd_hash : string → string → exception + string.
Variable pwd_verify : string → string → exception + bool.
Variable random_rowid : list Z → Z.
Variable scan_before : Movie.t → Movie.t → bool.

Local Abbreviation app_ :=
  (app module_names_of_source relationships_of_source environ_SECRET_KEY sign
       pwd_hash pwd_verify random_rowid scan_before).
Local Abbreviation serve_all_ :=
  (serve_all module_names_of_source relationships_of_source environ_SECRET_KEY sign
             pwd_hash pwd_verify random_rowid scan_before).
Local Abbreviation register_user_ :=
  (register_user relationships_of_source pwd_hash random_rowid).
Local Abbreviation login_for_access_token_ :=
  (login_for_access_token relationships_of_source environ_SECRET_KEY sign pwd_verify).
Local Abbreviation get_current_user_ :=
  (get_current_user relationships_of_source environ_SECRET_KEY sign).
Local Abbreviation create_access_token_ := (create_access_token environ_SECRET_KEY sign).
Local Abbreviation get_movies_ := (get_movies relationships_of_source scan_before).
Local Abbreviation create_movie_ := (create_movie relationships_of_source random_rowid).
Local Abbreviation get_movie_ := (get_movie relationships_of_source).
Local Abbreviation update_movie_ := (update_movie relationships_of_source).
Local Abbreviation delete_movie_ := (delete_movie relationships_of_source).

Lemma app_as_written (req : Request) (env : Env) (db : DB) :
  app_ req env db = (Raise (NameError "Response"), db).
Proof. apply middleware_unbound, Response_is_not_bound. Qed.

Lemma serve_all_as_written (reqs : list (Request * Env)) (db : DB) :
  serve_all_ reqs db = db.
Proof.
  induction reqs as [|[req env] reqs IH]; [done|].
  cbn [serve_all]. by rewrite app_as_written.
Qed.

Lemma handlers_as_written (s : Session) :
  (∀ username password salt,
     register_user_ username password salt s = (Raise mapper_error_of_source, s))
  ∧ (∀ username password t,
       login_for_access_token_ username password t s = (Raise mapper_error_of_source, s))
  ∧ (∀ skip lim, get_movies_ skip lim s = (Raise mapper_error_of_source, s))
  ∧ (∀ title description user,
       create_movie_ title description user s = (Raise mapper_error_of_source, s))
  ∧ (∀ movie_id, get_movie_ movie_id s = (Raise mapper_error_of_source, s))
  ∧ (∀ movie_id title description user,
       update_movie_ movie_id title description user s
       = (Raise mapper_error_of_source, s))
  ∧ (∀ movie_id user,
       delete_movie_ movie_id user s = (Raise mapper_error_of_source, s)).
Proof.
  exact (unconfigured_handlers relationships_of_source environ_SECRET_KEY sign
           pwd_hash pwd_verify random_rowid scan_before _ s mappers_of_source_fail).
Qed.

(** C1. As written, update_movie and delete_movie do not get as far as
    their 404: over HTTP the middleware raises NameError and the answer is
    500; called past the middleware they raise at db.query(Movie), for the
    owner, for another user and for an id that is not there alike.  The
    stored movie stays as it was. *)
Theorem update_delete_as_written
    (authorization : option Token) (movie_id : Z) (title description : string)
    (B : User.t) (env : Env) (db : DB) :
  app_ (PutMovie authorization movie_id title description) env db
    = (Raise (NameError "Response"), db)
  ∧ app_ (DeleteMovie authorization movie_id) env db
    = (Raise (NameError "Response"), db)
  ∧ update_movie_ movie_id title description B (SessionLocal db)
    = (Raise mapper_error_of_source, SessionLocal db)
  ∧ delete_movie_ movie_id B (SessionLocal db)
    = (Raise mapper_error_of_source, SessionLocal db)
  ∧ status_of (fst (app_ (PutMovie authorization movie_id title description) env db))
    = 500
  ∧ status_of (fst (update_movie_ movie_id title description B (SessionLocal db)))
    = 500.
Proof.
  destruct (handlers_as_written (SessionLocal db)) as (_ & _ & _ & _ & _ & Hup & Hdel).
  rewrite !app_as_written, Hup, Hdel. by repeat split.
Qed.

(** C2. As written, login does not return a token: over HTTP the answer is
    500 by the NameError of the middleware, and called past the middleware
    login_for_access_token raises at its lookup.  get_current_user, given
    the token create_access_token makes for the login flow, raises at
    db.query(User) up to the expiry instead of returning the user; after
    the expiry it answers 401. *)
Theorem login_and_guard_as_written
    (username password : string) (user_id T t : Z) (env : Env) (db : DB)
    (s : Session) :
  app_ (PostToken username password) env db = (Raise (NameError "Response"), db)
  ∧ login_for_access_token_ username password T s = (Raise mapper_error_of_source, s)
  ∧ (t ≤ T + minutes 30 →
     get_current_user_
       (create_access_token_ {["user_id" := user_id]}
                             (Some (minutes ACCESS_TOKEN_EXPIRE_MINUTES)) T) t s
     = (Raise mapper_error_of_source, s))
  ∧ (T + minutes 30 < t →
     get_current_user_
       (create_access_token_ {["user_id" := user_id]}
                             (Some (minutes ACCESS_TOKEN_EXPIRE_MINUTES)) T) t s
     = (Raise credentials_exception, s)).
Proof.
  destruct (handlers_as_written s) as (_ & Hlogin & _).
  split; [apply app_as_written|]. split; [apply Hlogin|].
  rewrite get_current_user_issued. split.
  - intros Hle. by rewrite (proj2 (Z.ltb_ge _ _) Hle).
  - intros Hlt. by rewrite (proj2 (Z.ltb_lt _ _) Hlt).
Qed.

(** C4. As written, neither failing login answers 401: on a table [db1]
    without the username and on a table [db2] with it alike,
    login_for_access_token raises at its lookup, before it looks at a user
    or a password, and the answer is 500. *)
Theorem login_failures_as_written
    (db1 db2 : DB) (username password : string) (t1 t2 : Z) (env : Env) :
  login_for_access_token_ username password t1 (SessionLocal db1)
    = (Raise mapper_error_of_source, SessionLocal db1)
  ∧ login_for_access_token_ username password t2 (SessionLocal db2)
    = (Raise mapper_error_of_source, SessionLocal db2)
  ∧ status_of (fst (login_for_access_token_ username password t1 (SessionLocal db1)))
    = 500
  ∧ status_of (fst (app_ (PostToken username password) env db2)) = 500.
Proof.
  destruct (handlers_as_written (SessionLocal db1)) as (_ & Hlogin1 & _).
  destruct (handlers_as_written (SessionLocal db2)) as (_ & Hlogin2 & _).
  by rewrite app_as_written, Hlogin1, Hlogin2.
Qed.

(** C5. As written, neither of two registrations of a username answers:
    each raises at db.query(User), the second does not get to its 400, and
    no user is stored, not even the first. *)
Theorem two_registrations_as_written
    (db : DB) (u p1 p2 salt1 salt2 : string) (env1 env2 : Env) :
  register_user_ u p1 salt1 (SessionLocal db)
    = (Raise mapper_error_of_source, SessionLocal db)
  ∧ register_user_ u p2 salt2 (SessionLocal db)
    = (Raise mapper_error_of_source, SessionLocal db)
  ∧ app_ (PostRegister u p1) env1 db = (Raise (NameError "Response"), db)
  ∧ serve_all_ [(PostRegister u p1, env1); (PostRegister u p2, env2)] db = db.
Proof.
  destruct (handlers_as_written (SessionLocal db)) as (Hreg & _).
  rewrite !Hreg, app_as_written, serve_all_as_written. by repeat split.
Qed.

(** C6. As written, create_movie stores nothing and returns no id: it
    raises at Movie(...), and get_movie raises at db.query(Movie); over
    HTTP both answers are 500. *)
Theorem create_and_get_as_written
    (db : DB) (title description : string) (user : User.t) (movie_id : Z)
    (authorization : option Token) (env : Env) :
  create_movie_ title description user (SessionLocal db)
    = (Raise mapper_error_of_source, SessionLocal db)
  ∧ get_movie_ movie_id (SessionLocal db)
    = (Raise mapper_error_of_source, SessionLocal db)
  ∧ app_ (PostMovies authorization title description) env db
    = (Raise (NameError "Response"), db)
  ∧ app_ (GetMovie movie_id) env db = (Raise (NameError "Response"), db).
Proof.
  destruct (handlers_as_written (SessionLocal db)) as (_ & _ & _ & Hcreate & Hget & _).
  rewrite Hcreate, Hget, !app_as_written. by repeat split.
Qed.

(** C7. As written, get_movies returns no page: whatever skip and limit
    are, it raises at db.query(Movie), and over HTTP the answer is 500. *)
Theorem get_movies_as_written
    (db : DB) (skip lim : Z) (query_skip query_limit : option Z) (env : Env) :
  get_movies_ skip lim (SessionLocal db)
    = (Raise mapper_error_of_source, SessionLocal db)
  ∧ app_ (GetMovies query_skip query_limit) env db
    = (Raise (NameError "Response"), db)
  ∧ status_of (fst (app_ (GetMovies query_skip query_limit) env db)) = 500.
Proof.
  destruct (handlers_as_written (SessionLocal db)) as (_ & _ & Hlist & _).
  rewrite Hlist, !app_as_written. by repeat split.
Qed.

(** C9. As written, a registration under a free username does not
    succeed: for the empty username and the empty password, as for any
    other, register_user raises at db.query(User) and no user is
    stored. *)
Theorem register_as_written
    (db : DB) (username password salt : string) (env : Env) :
  register_user_ username password salt (SessionLocal db)
    = (Raise mapper_error_of_source, SessionLocal db)
  ∧ register_user_ "" "" salt (SessionLocal db)
    = (Raise mapper_error_of_source, SessionLocal db)
  ∧ users (snd (app_ (PostRegister username password) env db)) = users db.
Proof.
  destruct (handlers_as_written (SessionLocal db)) as (Hreg & _).
  by rewrite !Hreg, app_as_written.
Qed.

End AsWritten.

(** ** The properties on the small instance *)

Lemma unverified_token_rejected_witness :
  get_current_user relationships_of_source None demo_sign
    (Jws "HS256" (<["exp" := 2800]> {["user_id" := 1]})
         (demo_sign "your_secret_key" "HS256" (<["exp" := 2800]> {["user_id" := 1]})
          +:+ "x"))
    1001 (SessionLocal demo_db)
  = (Raise credentials_exception, SessionLocal demo_db).
Proof.
  refine (proj1 (unverified_token_rejected relationships_of_source None demo_sign
                   (Jws "HS256" (<["exp" := 2800]> {["user_id" := 1]})
                        (demo_sign "your_secret_key" "HS256"
                                   (<["exp" := 2800]> {["user_id" := 1]}) +:+ "x"))
                   1001 (SessionLocal demo_db) _)).
  vm_compute. reflexivity.
Defined.

Lemma owner_never_changes_witness :
  ∃ M',
    movie_get 1
      (serve_all module_names_of_source relationships_of_source None demo_sign
         demo_pwd_hash demo_pwd_verify demo_random_rowid demo_scan_before
         [(PutMovie (Some (create_access_token None demo_sign {["user_id" := 2]}
                             (Some (minutes 30)) 0))
                    1 "Aliens" "Sequel", {| now := 5; salt := "" |});
          (DeleteMovie (Some (create_access_token None demo_sign {["user_id" := 2]}
                                (Some (minutes 30)) 0))
                       1, {| now := 6; salt := "" |})]
         demo_db) = Some M'
    ∧ Movie.user_id M' = Movie.user_id alien ∧ Movie.id M' = Movie.id alien.
Proof.
  destruct (owner_never_changes module_names_of_source relationships_of_source
              None demo_sign demo_pwd_hash demo_pwd_verify demo_random_rowid
              demo_scan_before demo_db 1 alien
              [(PutMovie (Some (create_access_token None demo_sign {["user_id" := 2]}
                                  (Some (minutes 30)) 0))
                         1 "Aliens" "Sequel", {| now := 5; salt := "" |});
               (DeleteMovie (Some (create_access_token None demo_sign {["user_id" := 2]}
                                     (Some (minutes 30)) 0))
                            1, {| now := 6; salt := "" |})])
    as [[k Hgone]|Hkept].
  - vm_compute. reflexivity.
  - destruct k as [|[|[|k]]]; vm_compute in Hgone; discriminate Hgone.
  - exact Hkept.
Defined.

Lemma failed_request_stores_nothing_witness :
  snd (app module_names_of_source relationships_of_source None demo_sign
         demo_pwd_hash demo_pwd_verify demo_random_rowid demo_scan_before
         (PostRegister "alice" "again") {| now := 7; salt := "s5" |} demo_db)
  = demo_db.
Proof.
  apply (failed_request_stores_nothing module_names_of_source relationships_of_source
           None demo_sign demo_pwd_hash demo_pwd_verify demo_random_rowid
           demo_scan_before (PostRegister "alice" "again")
           {| now := 7; salt := "s5" |} demo_db (NameError "Response")).
  vm_compute. reflexivity.
Defined.

Lemma usernames_stay_unique_witness :
  NoDup (User.id <$> users
           (serve_all module_names_of_source relationships_of_source None demo_sign
              demo_pwd_hash demo_pwd_verify demo_random_rowid demo_scan_before
              [(PostRegister "carol" "first", {| now := 1; salt := "s3" |});
               (PostRegister "carol" "second", {| now := 2; salt := "s4" |})]
              demo_db)).
Proof.
  refine (proj1 (proj2 (usernames_stay_unique module_names_of_source
                          relationships_of_source None demo_sign demo_pwd_hash
                          demo_pwd_verify demo_random_rowid demo_scan_before
                          _ demo_db _))).
  split; apply (bool_decide_unpack _); vm_compute; exact I.
Defined.

Lemma every_movie_has_a_stored_owner_witness :
  owners_exist
    (serve_all module_names_of_source relationships_of_source None demo_sign
       demo_pwd_hash demo_pwd_verify demo_random_rowid demo_scan_before
       [(PostMovies (Some (create_access_token None demo_sign {["user_id" := 2]}
                             (Some (minutes 30)) 0))
                    "Brazil" "Ducts", {| now := 6; salt := "" |})]
       demo_db).
Proof.
  refine (proj1 (every_movie_has_a_stored_owner module_names_of_source
                   relationships_of_source None demo_sign demo_pwd_hash
                   demo_pwd_verify demo_random_rowid demo_scan_before _ demo_db _)).
  intros m Hm. apply list_elem_of_singleton in Hm. subst m.
  exists alice. split; [apply elem_of_cons; left; reflexivity | reflexivity].
Defined.

Lemma token_without_user_id_rejected_witness :
  get_current_user relationships_of_source None demo_sign
    (jwt_encode demo_sign {["exp" := 5000]} (SECRET_KEY None) ALGORITHM)
    1000 (SessionLocal demo_db)
  = (Raise credentials_exception, SessionLocal demo_db).
Proof.
  apply (token_without_user_id_rejected relationships_of_source None demo_sign).
  vm_compute. reflexivity.
Defined.

Lemma other_algorithm_rejected_witness :
  get_current_user relationships_of_source None demo_sign
    (Jws "none" (<["exp" := 5000]> {["user_id" := 1]}) "") 1000 (SessionLocal demo_db)
  = (Raise credentials_exception, SessionLocal demo_db).
Proof.
  refine (proj1 (other_algorithm_rejected relationships_of_source None demo_sign
                   "none" "" (<["exp" := 5000]> {["user_id" := 1]}) 1000
                   (SessionLocal demo_db) _)).
  discriminate.
Defined.

(** The same requests, run on the small instance. *)
Example put_by_another_user_answers_500 :
  status_of (fst (app module_names_of_source relationships_of_source None demo_sign
                    demo_pwd_hash demo_pwd_verify demo_random_rowid demo_scan_before
                    (PutMovie (Some (create_access_token None demo_sign
                                       {["user_id" := 2]} (Some (minutes 30)) 0))
                              1 "Aliens" "Sequel")
                    {| now := 5; salt := "" |} demo_db))
  = 500.
Proof. vm_compute. reflexivity. Qed.

Example update_by_another_user_raises :
  update_movie relationships_of_source 1 "Aliens" "Sequel" bob (SessionLocal demo_db)
  = (Raise mapper_error_of_source, SessionLocal demo_db).
Proof. vm_compute. reflexivity. Qed.

Example login_raises :
  login_for_access_token relationships_of_source None demo_sign demo_pwd_verify
    "alice" "wonderland" 1000 (SessionLocal demo_db)
  = (Raise mapper_error_of_source, SessionLocal demo_db).
Proof. vm_compute. reflexivity. Qed.

Example expired_token_answers_401 :
  get_current_user relationships_of_source None demo_sign
    (create_access_token None demo_sign {["user_id" := 1]} (Some (minutes 30)) 1000)
    2801 (SessionLocal demo_db)
  = (Raise credentials_exception, SessionLocal demo_db).
Proof. vm_compute. reflexivity. Qed.
